(** * ANCE.AI gateway: a shallow embedding of [src/main.py]

    The four request handlers of the FastAPI application ([register],
    [login], [chat], [usage]) are embedded as computations in a small
    exception-and-state monad over the two database tables.  What lies
    outside the repository is kept abstract:

    - the JWT library ([jwt.encode], [jwt.decode]) and the password hashing
      context ([pwd_context.hash], [pwd_context.verify]) are the fields of
      the class [Libs];
    - the process environment, the clock and the upstream completion
      service are the fields of the record [Env], one per request.

    Requests are served one after the other.  A handler starts once
    [HTTPBearer] has handed it the bearer credentials, and ends by returning
    a dict or by raising; the first commit of [register] and the second are
    not separated by anything that can raise. *)

From Stdlib Require Import ZArith Qcanon.
From stdpp Require Import numbers strings gmap.

Open Scope Z_scope.

(** ** Data model (lines 26-55) *)

(** [class User(Base)], table [users]. *)
Module User.
Record t := mk
  { id : Z;
    email : string;
    hashed_password : string;
    is_active : bool }.
End User.

(** [class Subscription(Base)], table [subscriptions].  The two [Float]
    columns only ever hold the column defaults [0.0] and [500.0] and are
    only compared, so they are kept as exact rationals.  [cycle_end] is a
    [DateTime]; time is counted in microseconds, the resolution of Python's
    [datetime]. *)
Module Subscription.
Record t := mk
  { id : Z;
    user_id : Z;
    status : string;
    cycle_end : Z;
    tokens_used : Qc;
    quota : Qc }.
End Subscription.

(** [class UserCreate(BaseModel)]. *)
Module UserCreate.
Record t := mk { email : string; password : string }.
End UserCreate.

(** [class ChatRequest(BaseModel)]; [type] defaults to ["text"]. *)
Module ChatRequest.
Record t := mk { message : string; type : string }.
End ChatRequest.

(** The database: both tables in row order.  Rows are only ever appended. *)
Record Db := mkDb
  { users : list User.t;
    subscriptions : list Subscription.t }.

(** What a request can observe and change: the database, and the prompts
    that were sent to the upstream completion service (newest last). *)
Record World := mkWorld
  { db : Db;
    upstream_calls : list string }.

Definition fresh : World := mkWorld (mkDb [] []) [].

(** ** External collaborators *)

(** The claims of a token: a Python dict with string keys.  The program only
    ever stores the integer account id under ["sub"]. *)
Abbreviation claims := (gmap string Z).

(** [jose.jwt] and [passlib]'s [CryptContext].  [jwt_decode] is [None] where
    the library raises [JWTError]; it is given the clock because the library
    checks time claims against it.  [pwd_hash] takes the salt that bcrypt
    draws at random. *)
Class Libs := mkLibs
  { token : Type;
    jwt_encode : claims → string → string → token;
    jwt_decode : token → string → list string → Z → option claims;
    pwd_hash : string → string → string;
    pwd_verify : string → string → bool }.

(** The answer of [openai.chat.completions.create]: it raises, or returns a
    response with its [choices] (message contents) and its optional [usage]
    ([total_tokens]). *)
Inductive completion :=
| CompletionRaises (why : string)
| Completion (choices : list string) (usage : option Z).

(** The surroundings of one request. *)
Record Env := mkEnv
  { SECRET_KEY : option string;      (* the environment variable, if set *)
    utcnow : Z;                      (* [datetime.utcnow()] *)
    salt : string;                   (* randomness used by bcrypt *)
    completions_create : string → string → completion }.

(** [os.getenv("SECRET_KEY", "secret")]. *)
Definition getenv_SECRET_KEY (env : Env) : string :=
  default "secret" (SECRET_KEY env).

(** [timedelta(days=d)], in microseconds. *)
Definition timedelta (days : Z) : Z := days * 86400000000.

(** ** Results and exceptions *)

(** Python exceptions that the handlers can raise.  FastAPI turns an
    [HTTPException] into a response with that status and detail; any other
    exception leaves the handler unhandled (status 500). *)
Inductive exn :=
| HTTPException (status_code : Z) (detail : string)
| JWTError
| KeyError (key : string)
| AttributeError
| IndexError
| UpstreamError (why : string).

Section WithLibs.
Context `{L : Libs}.

(** Values of the JSON objects that the handlers return. *)
Inductive jval :=
| JStr (s : string)
| JInt (n : Z)
| JFloat (q : Qc)
| JToken (t : token).

(** A returned dict, in insertion order. *)
Definition body : Type := list (string * jval).

(** ** The handler monad: exceptions over the world *)

Definition M (A : Type) : Type := World → (exn + A) * World.

#[local] Instance M_ret : MRet M := λ A a w, (inr a, w).

#[local] Instance M_bind : MBind M := λ A B f m w,
  match m w with
  | (inl e, w') => (inl e, w')
  | (inr a, w') => f a w'
  end.

Definition raise {A} (e : exn) : M A := λ w, (inl e, w).

(** [try: m  except: h] with a bare [except]. *)
Definition try_except {A} (m : M A) (h : M A) : M A := λ w,
  match m w with
  | (inl _, w') => h w'
  | r => r
  end.

(** [db.query(User).filter(User.email == email).first()]. *)
Definition first_user_by_email (email : string) : M (option User.t) := λ w,
  (inr (head (filter (λ u, User.email u = email) (users (db w)))), w).

(** [db.query(Subscription).filter(Subscription.user_id == user_id).first()]. *)
Definition first_subscription_by_user (user_id : Z)
  : M (option Subscription.t) := λ w,
  (inr (head (filter (λ s, Subscription.user_id s = user_id)
                     (subscriptions (db w)))), w).

(** The integer primary key the database gives to a new row. *)
Definition next_id (ids : list Z) : Z := Z.succ (foldr Z.max 0 ids).

(** [db.add(User(email=.., hashed_password=..)); db.commit()]: the row gets
    its id and the default [is_active=True]. *)
Definition add_user (email hashed : string) : M User.t := λ w,
  let d := db w in
  let row := User.mk (next_id (User.id <$> users d)) email hashed true in
  (inr row, mkWorld (mkDb (users d ++ [row]) (subscriptions d))
                    (upstream_calls w)).

(** [db.add(Subscription(user_id=.., cycle_end=..)); db.commit()]: the
    defaults fill [status], [tokens_used] and [quota]. *)
Definition add_subscription (user_id cycle_end : Z) : M Subscription.t := λ w,
  let d := db w in
  let row := Subscription.mk (next_id (Subscription.id <$> subscriptions d))
               user_id "active" cycle_end (Qc_of_Z 0) (Qc_of_Z 500) in
  (inr row, mkWorld (mkDb (users d) (subscriptions d ++ [row]))
                    (upstream_calls w)).

(** [jwt.decode(token.credentials, key, algorithms=algs)]. *)
Definition decode (env : Env) (t : token) : M claims := λ w,
  match jwt_decode t (getenv_SECRET_KEY env) ["HS256"%string] (utcnow env) with
  | Some payload => (inr payload, w)
  | None => (inl JWTError, w)
  end.

(** [payload[key]]. *)
Definition getitem (payload : claims) (key : string) : M Z :=
  match payload !! key with
  | Some v => mret v
  | None => raise (KeyError key)
  end.

(** [openai.chat.completions.create(model=.., messages=[user message])]. *)
Definition create (env : Env) (model content : string)
  : M (list string * option Z) := λ w,
  let w' := mkWorld (db w) (upstream_calls w ++ [content]) in
  match completions_create env model content with
  | CompletionRaises why => (inl (UpstreamError why), w')
  | Completion choices usage => (inr (choices, usage), w')
  end.

(** ** The handlers *)

(** [POST /register], lines 62-73. *)
Definition register (env : Env) (user : UserCreate.t) : M body :=
  existing ← first_user_by_email (UserCreate.email user);
  if existing is Some _ then
    raise (HTTPException 400 "Email already registered")
  else
    let hashed := pwd_hash (salt env) (UserCreate.password user) in
    db_user ← add_user (UserCreate.email user) hashed;
    _ ← add_subscription (User.id db_user) (utcnow env + timedelta 30);
    mret [("msg"%string, JStr "Registered! Login now.")].

(** The token of line 80. *)
Definition login_token (env : Env) (account : Z) : token :=
  jwt_encode {[ "sub"%string := account ]} (getenv_SECRET_KEY env) "HS256".

(** [POST /login], lines 75-81.  The two disjuncts of line 78 are the two
    branches that raise. *)
Definition login (env : Env) (user : UserCreate.t) : M body :=
  db_user ← first_user_by_email (UserCreate.email user);
  match db_user with
  | None => raise (HTTPException 400 "Invalid credentials")
  | Some u =>
      if negb (pwd_verify (UserCreate.password user) (User.hashed_password u))
      then raise (HTTPException 400 "Invalid credentials")
      else mret [("access_token"%string, JToken (login_token env (User.id u)))]
  end.

(** The [try] block of [chat], lines 85-88. *)
Definition chat_user_id (env : Env) (t : token) : M Z :=
  try_except
    (payload ← decode env t; getitem payload "sub")
    (raise (HTTPException 401 "Invalid token")).

(** The condition of line 91. *)
Definition quota_exceeded (env : Env) (sub : option Subscription.t) : bool :=
  match sub with
  | None => true
  | Some s =>
      bool_decide (Subscription.cycle_end s < utcnow env)
      || bool_decide (Subscription.quota s ≤ Subscription.tokens_used s)%Qc
  end.

(** [POST /chat], lines 83-98. *)
Definition chat (env : Env) (request : ChatRequest.t) (t : token) : M body :=
  user_id ← chat_user_id env t;
  sub ← first_subscription_by_user user_id;
  if quota_exceeded env sub then
    raise (HTTPException 403 "Quota exceeded")
  else if bool_decide (ChatRequest.type request = "text"%string) then
    resp ← create env "gpt-4o-mini" (ChatRequest.message request);
    let tokens := default 50 (snd resp) in
    match fst resp with
    | [] => raise IndexError
    | content :: _ =>
        mret [("response"%string, JStr content); ("tokens"%string, JInt tokens)]
    end
  else
    mret [("error"%string, JStr "Only text supported")].

(** [GET /usage], lines 100-104. *)
Definition usage (env : Env) (t : token) : M body :=
  payload ← decode env t;
  user_id ← getitem payload "sub";
  sub ← first_subscription_by_user user_id;
  match sub with
  | None => raise AttributeError
  | Some s =>
      mret [("used"%string, JFloat (Subscription.tokens_used s));
            ("quota"%string, JFloat (Subscription.quota s))]
  end.

(** ** Requests and reachable worlds *)

Inductive request :=
| Register (user : UserCreate.t)
| Login (user : UserCreate.t)
| Chat (request : ChatRequest.t) (t : token)
| Usage (t : token).

Definition handle (env : Env) (r : request) : M body :=
  match r with
  | Register user => register env user
  | Login user => login env user
  | Chat req t => chat env req t
  | Usage t => usage env t
  end.

(** The worlds the program can be in: it starts with empty tables and
    serves one request after the other, each in its own surroundings. *)
Inductive reachable : World → Prop :=
| reachable_fresh : reachable fresh
| reachable_handle env r w :
    reachable w → reachable (snd (handle env r w)).

End WithLibs.

Arguments jval : clear implicits.
Arguments body : clear implicits.
Arguments request : clear implicits.

(** ** The admission check, in the words of the specification *)




(** ** Consistency of the tables *)

(** What holds of both tables in every reachable world: emails and account
    ids are unique, the subscriptions are those of the accounts, in the same
    order, and every subscription still has its column defaults. *)
Record consistent (d : Db) : Prop := mkConsistent
  { consistent_emails : NoDup (User.email <$> users d);
    consistent_ids : NoDup (User.id <$> users d);
    consistent_owner :
      Subscription.user_id <$> subscriptions d = User.id <$> users d;
    consistent_defaults :
      Forall (λ s, Subscription.tokens_used s = Qc_of_Z 0
                   ∧ Subscription.quota s = Qc_of_Z 500) (subscriptions d) }.



(** A token that verification turns down: the library raises, or the
    decoded payload has no ["sub"]. *)
Definition invalid_token `{L : Libs} (env : Env) (t : token) : Prop :=
  match jwt_decode t (getenv_SECRET_KEY env) ["HS256"%string] (utcnow env) with
  | None => True
  | Some payload => payload !! "sub"%string = None
  end.


(** ** A reference instance of the libraries

    A token is the claims together with the key and algorithm that signed
    them; decoding checks the key, the algorithm and the expiry claim.  A
    password hash is the salt and the password. *)
Module Model.
Record signed := sign
  { payload : claims; key : string; alg : string }.

Definition decode_signed (t : signed) (k : string) (algs : list string)
    (now : Z) : option claims :=
  if bool_decide (key t = k) && bool_decide (alg t ∈ algs) then
    match payload t !! "exp"%string with
    | Some exp => if bool_decide (exp < now) then None else Some (payload t)
    | None => Some (payload t)
    end
  else None.

Definition libs : Libs :=
  {| token := signed;
     jwt_encode := sign;
     jwt_decode := decode_signed;
     pwd_hash := λ salt password, (salt +:+ "$" +:+ password)%string;
     pwd_verify := λ password hashed,
       bool_decide (hashed ∈ (λ salt, salt +:+ "$" +:+ password)%string
                               <$> ["s1"; "s2"]%string) |}.

(** The end-to-end scenario of the specification. *)
Definition alice : UserCreate.t := UserCreate.mk "a@x.com" "pw123".

Definition ten_units (model content : string) : completion :=
  Completion ["Hello!"%string] (Some 10).

Definition down (model content : string) : completion :=
  CompletionRaises "timeout".

Definition env_at (now : Z) (up : string → string → completion) : Env :=
  mkEnv None now "s1" up.

Definition registered : World :=
  snd (register (L:=libs) (env_at 1000 ten_units) alice fresh).

Definition alice_token : @token libs :=
  sign {[ "sub"%string := 1 ]} "secret" "HS256".

Definition forged_token : @token libs :=
  sign {[ "sub"%string := 1 ]} "guess" "HS256".

Definition anonymous_token : @token libs :=
  sign ∅ "secret" "HS256".
End Model.

(** ** Two readings of the specification, to be compared with the code *)




(** ** Serving requests in a row, and what the handlers do not read *)

(** The world after the requests [rs], each with its surroundings, have been
    served in order. *)
Definition serve `{L : Libs} (rs : list (Env * request L)) (w : World)
  : World :=
  foldl (λ w' er, snd (handle er.1 er.2 w')) w rs.

(** Two user rows that differ at most in [is_active], two subscription rows
    that differ at most in [status], and two worlds whose tables are such
    rows, pairwise. *)
Definition same_user (u u' : User.t) : Prop :=
  User.id u = User.id u'
  ∧ User.email u = User.email u'
  ∧ User.hashed_password u = User.hashed_password u'.

Definition same_subscription (s s' : Subscription.t) : Prop :=
  Subscription.id s = Subscription.id s'
  ∧ Subscription.user_id s = Subscription.user_id s'
  ∧ Subscription.cycle_end s = Subscription.cycle_end s'
  ∧ Subscription.tokens_used s = Subscription.tokens_used s'
  ∧ Subscription.quota s = Subscription.quota s'.

Definition same_but_flags (w w' : World) : Prop :=
  Forall2 same_user (users (db w)) (users (db w'))
  ∧ Forall2 same_subscription (subscriptions (db w)) (subscriptions (db w')).

(** * Properties *)

Section Handlers.
Context `{L : Libs}.

(** ** The handlers, run *)

Lemma chat_user_id_run env t w :
  chat_user_id env t w =
    match jwt_decode t (getenv_SECRET_KEY env) ["HS256"%string] (utcnow env) with
    | Some payload =>
        match payload !! "sub"%string with
        | Some account => (inr account, w)
        | None => (inl (HTTPException 401 "Invalid token"), w)
        end
    | None => (inl (HTTPException 401 "Invalid token"), w)
    end.
Proof.
  unfold chat_user_id, try_except, decode, getitem, mbind, M_bind.
  destruct (jwt_decode _ _ _ _) as [payload|]; [|done].
  by destruct (payload !! _).
Qed.

Lemma chat_user_id_world env t w : snd (chat_user_id env t w) = w.
Proof.
  rewrite chat_user_id_run.
  destruct (jwt_decode _ _ _ _) as [payload|]; [|done].
  by destruct (payload !! _).
Qed.

Lemma register_run env user w :
  register env user w =
    match head (filter (λ u, User.email u = UserCreate.email user)
                       (users (db w))) with
    | Some _ => (inl (HTTPException 400 "Email already registered"), w)
    | None =>
        let account := next_id (User.id <$> users (db w)) in
        (inr [("msg"%string, JStr "Registered! Login now.")],
         mkWorld
           (mkDb
              (users (db w) ++
                 [User.mk account (UserCreate.email user)
                    (pwd_hash (salt env) (UserCreate.password user)) true])
              (subscriptions (db w) ++
                 [Subscription.mk
                    (next_id (Subscription.id <$> subscriptions (db w)))
                    account "active" (utcnow env + timedelta 30)
                    (Qc_of_Z 0) (Qc_of_Z 500)]))
           (upstream_calls w))
    end.
Proof.
  unfold register, first_user_by_email, mbind, M_bind.
  by destruct (head _).
Qed.

Lemma login_world env user w : snd (login env user w) = w.
Proof.
  unfold login, first_user_by_email, mbind, M_bind.
  destruct (head _) as [u|]; [|done].
  by destruct (pwd_verify _ _).
Qed.

Lemma usage_world env t w : snd (usage env t w) = w.
Proof.
  unfold usage, decode, getitem, first_subscription_by_user, raise,
    mbind, M_bind, mret, M_ret.
  destruct (jwt_decode _ _ _ _) as [payload|]; [|done].
  destruct (payload !! _); [|done].
  by destruct (head _).
Qed.

Lemma chat_db env req t w : db (snd (chat env req t w)) = db w.
Proof.
  unfold chat, mbind, M_bind.
  pose proof (chat_user_id_world env t w) as Hw.
  destruct (chat_user_id env t w) as [[e|account] w']; simpl in Hw; subst w';
    [done|].
  unfold first_subscription_by_user.
  destruct (quota_exceeded _ _); [done|].
  case_bool_decide; [|done].
  unfold create.
  destruct (completions_create _ _ _) as [why|choices used]; [done|].
  by destruct choices.
Qed.

(** The answer of a usage query depends on the tables only. *)
Lemma usage_db env t w w' :
  db w = db w' → fst (usage env t w) = fst (usage env t w').
Proof.
  intros Hdb.
  unfold usage, decode, getitem, first_subscription_by_user, raise,
    mbind, M_bind, mret, M_ret.
  destruct (jwt_decode _ _ _ _) as [payload|]; [|done].
  destruct (payload !! _); [|done].
  rewrite Hdb. by destruct (head _).
Qed.

End Handlers.

(** ** Queries on tables *)

Section Queries.
Context {A B : Type} `{EqDecision B} (f : A → B).

(** [.first()] finds nothing exactly when no row has the key. *)
Lemma first_None (k : B) (rows : list A) :
  head (filter (λ x, f x = k) rows) = None ↔ k ∉ f <$> rows.
Proof.
  rewrite head_None. induction rows as [|x rows IH]; simpl.
  - split; [intros _; apply not_elem_of_nil|done].
  - rewrite filter_cons, not_elem_of_cons. case_decide as Hx.
    + split; [done|]. intros [Hne _]. by destruct Hne.
    + rewrite IH. split; [|tauto]. intros Hk. split; [congruence|done].
Qed.

(** A row appended under a key that no row has is the one [.first()] finds. *)
Lemma first_snoc_new (k : B) (rows : list A) (x : A) :
  k ∉ f <$> rows → f x = k →
  head (filter (λ y, f y = k) (rows ++ [x])) = Some x.
Proof.
  intros Hk Hx. apply first_None, head_None in Hk.
  rewrite filter_app, Hk. simpl. rewrite filter_cons. by case_decide.
Qed.

(** With unique keys, exactly one row answers to a key that is present. *)
Lemma filter_unique (k : B) (rows : list A) :
  NoDup (f <$> rows) → k ∈ f <$> rows →
  ∃ x, filter (λ y, f y = k) rows = [x] ∧ f x = k.
Proof.
  induction rows as [|x rows IH]; simpl; intros Hnd Hk.
  - by apply elem_of_nil in Hk.
  - apply NoDup_cons in Hnd as [Hx Hnd]. rewrite filter_cons.
    case_decide as Hfx.
    + exists x. split; [|done]. f_equal. apply head_None, first_None.
      by rewrite <- Hfx.
    + apply elem_of_cons in Hk as [Hk|Hk]; [congruence|]. by apply IH.
Qed.

End Queries.

(** A new primary key is above all the keys of the table. *)
Lemma next_id_above (ids : list Z) : Forall (λ i, i < next_id ids) ids.
Proof.
  unfold next_id. induction ids as [|i ids IH]; simpl; constructor.
  - lia.
  - eapply Forall_impl; [exact IH|]. simpl. intros j Hj. lia.
Qed.

Lemma next_id_new (ids : list Z) : next_id ids ∉ ids.
Proof.
  intros Hin. pose proof (next_id_above ids) as Hall.
  rewrite Forall_forall in Hall. apply Hall in Hin. lia.
Qed.

(** ** Consistency is an invariant *)

Section Invariant.
Context `{L : Libs}.

Lemma consistent_fresh : consistent (db fresh).
Proof. split; simpl; by constructor. Qed.

Lemma consistent_register env user w :
  consistent (db w) → consistent (db (snd (register env user w))).
Proof.
  intros [Hemails Hids Howner Hdefaults]. rewrite register_run.
  destruct (head _) eqn:Hfirst; [done|].
  apply first_None in Hfirst. split; simpl.
  - rewrite fmap_app. apply NoDup_app. split_and!; [done| |apply NoDup_singleton].
    simpl. intros e He ->%list_elem_of_singleton. done.
  - rewrite fmap_app. apply NoDup_app. split_and!; [done| |apply NoDup_singleton].
    simpl. intros i Hi ->%list_elem_of_singleton. by apply next_id_new in Hi.
  - rewrite !fmap_app. simpl. by rewrite Howner.
  - apply Forall_app. split; [done|]. by repeat constructor.
Qed.

Lemma consistent_handle env r w :
  consistent (db w) → consistent (db (snd (handle env r w))).
Proof.
  destruct r as [user|user|req t|t]; simpl.
  - apply consistent_register.
  - by rewrite login_world.
  - by rewrite chat_db.
  - by rewrite usage_world.
Qed.

Lemma reachable_consistent w : reachable w → consistent (db w).
Proof.
  induction 1 as [|env r w _ IH];
    [apply consistent_fresh|by apply consistent_handle].
Qed.


End Invariant.

(** ** The handlers on a verified token *)

Section Verified.
Context `{L : Libs}.

(** [chat] once the token has been verified, branch by branch. *)
Lemma chat_run env req t w account :
  fst (chat_user_id env t w) = inr account →
  chat env req t w =
    if quota_exceeded env (head (filter (λ s, Subscription.user_id s = account)
                                        (subscriptions (db w)))) then
      (inl (HTTPException 403 "Quota exceeded"), w)
    else if bool_decide (ChatRequest.type req = "text"%string) then
      let w' := mkWorld (db w) (upstream_calls w ++ [ChatRequest.message req]) in
      match completions_create env "gpt-4o-mini" (ChatRequest.message req) with
      | CompletionRaises why => (inl (UpstreamError why), w')
      | Completion [] _ => (inl IndexError, w')
      | Completion (content :: _) used =>
          (inr [("response"%string, JStr content);
                ("tokens"%string, JInt (default 50 used))], w')
      end
    else (inr [("error"%string, JStr "Only text supported")], w).
Proof.
  intros Hid. pose proof (chat_user_id_world env t w) as Hw.
  unfold chat, mbind, M_bind.
  destruct (chat_user_id env t w) as [[e|account'] w']; simpl in *;
    [done|]. subst w'. injection Hid as ->.
  destruct (quota_exceeded _ _); [done|].
  case_bool_decide; [|done]. unfold create.
  destruct (completions_create _ _ _) as [why|[|content rest] used]; done.
Qed.


Lemma login_run env user w :
  login env user w =
    match head (filter (λ u, User.email u = UserCreate.email user)
                       (users (db w))) with
    | Some u =>
        if pwd_verify (UserCreate.password user) (User.hashed_password u)
        then (inr [("access_token"%string,
                    JToken (login_token env (User.id u)))], w)
        else (inl (HTTPException 400 "Invalid credentials"), w)
    | None => (inl (HTTPException 400 "Invalid credentials"), w)
    end.
Proof.
  unfold login, first_user_by_email, mbind, M_bind.
  destruct (head _) as [u|]; [|done]. by destruct (pwd_verify _ _).
Qed.

End Verified.

(** * The claims *)

Section Claims.
Context `{L : Libs}.



(** C3: on a token that does not verify (the library raises, or the payload
    has no ["sub"]), [chat] fails with 401 "Invalid token", whereas [usage]
    lets the library's [JWTError], or the [KeyError], escape unhandled. *)
Theorem usage_invalid_token_unhandled env req t w :
  invalid_token env t →
  chat env req t w = (inl (HTTPException 401 "Invalid token"), w)
  ∧ ∃ e, usage env t w = (inl e, w)
         ∧ (e = JWTError ∨ e = KeyError "sub")
         ∧ e ≠ HTTPException 401 "Invalid token".
Proof.
  unfold invalid_token. intros Hbad. split.
  - unfold chat, mbind, M_bind. rewrite chat_user_id_run.
    destruct (jwt_decode _ _ _ _) as [payload|]; [|done]. by rewrite Hbad.
  - unfold usage, decode, getitem, raise, mbind, M_bind.
    destruct (jwt_decode _ _ _ _) as [payload|].
    + rewrite Hbad. exists (KeyError "sub"). split_and!; [done|by right|done].
    + exists JWTError. split_and!; [done|by left|done].
Qed.

(** C4: if the upstream completion call of a chat request raises, the
    tables, and with them [tokens_used], are as before the request, and
    every usage query reports after the request what it reported before;
    where the request gets as far as the call, the upstream's exception is
    what the request fails with. *)
Theorem chat_upstream_failure_keeps_usage env req t w why :
  completions_create env "gpt-4o-mini" (ChatRequest.message req)
    = CompletionRaises why →
  db (snd (chat env req t w)) = db w
  ∧ (∀ env' t',
       fst (usage env' t' (snd (chat env req t w))) = fst (usage env' t' w))
  ∧ (∀ account sub,
       fst (chat_user_id env t w) = inr account →
       fst (first_subscription_by_user account w) = inr sub →
       quota_exceeded env sub = false →
       ChatRequest.type req = "text"%string →
       fst (chat env req t w) = inl (UpstreamError why)).
Proof.
  intros Hup. split_and!.
  - apply chat_db.
  - intros env' t'. apply usage_db, chat_db.
  - intros account sub Hid [= <-] Hquota Htype.
    rewrite (chat_run _ _ _ _ _ Hid), Hquota, Hup.
    by rewrite bool_decide_eq_true_2.
Qed.

(** C5: right after a successful registration from a reachable world, the
    account found under the new email has, as its billing cycle,
    [tokens_used = 0.0], [quota = 500.0] and [cycle_end] thirty days
    (counted in microseconds) after the time of the registration. *)
Theorem register_fresh_cycle env user w b :
  reachable w →
  fst (register env user w) = inr b →
  ∃ u s,
    fst (first_user_by_email (UserCreate.email user)
           (snd (register env user w))) = inr (Some u)
    ∧ fst (first_subscription_by_user (User.id u)
             (snd (register env user w))) = inr (Some s)
    ∧ Subscription.tokens_used s = Qc_of_Z 0
    ∧ Subscription.quota s = Qc_of_Z 500
    ∧ Subscription.cycle_end s = utcnow env + 30 * (24 * 60 * 60 * 1000000).
Proof.
  intros [_ _ Howner _]%reachable_consistent. rewrite register_run.
  destruct (head _) eqn:Hfirst; [done|]. intros _.
  apply first_None in Hfirst. eexists _, _. simpl. split_and!.
  - f_equal. by apply (first_snoc_new User.email).
  - f_equal. apply (first_snoc_new Subscription.user_id); [|done].
    rewrite Howner. apply next_id_new.
  - done.
  - done.
  - done.
Qed.





(** No request removes or rewrites a subscription. *)
Lemma handle_subscriptions env r w :
  subscriptions (db w) `prefix_of` subscriptions (db (snd (handle env r w))).
Proof.
  destruct r as [user|user|req t|t]; simpl.
  - rewrite register_run. destruct (head _); simpl; [done|].
    by apply prefix_app_r.
  - by rewrite login_world.
  - by rewrite chat_db.
  - by rewrite usage_world.
Qed.

(** C10: no request (register, login, chat, usage) rewrites a subscription,
    and in every world reachable from the fresh one every subscription has
    [tokens_used = 0.0]. *)
Theorem reachable_tokens_used_zero w :
  reachable w →
  Forall (λ s, Subscription.tokens_used s = Qc_of_Z 0) (subscriptions (db w))
  ∧ ∀ env r,
      subscriptions (db w) `prefix_of` subscriptions (db (snd (handle env r w))).
Proof.
  intros [_ _ _ Hdefaults]%reachable_consistent. split.
  - eapply Forall_impl; [exact Hdefaults|]. by intros s [? _].
  - intros env r. apply handle_subscriptions.
Qed.

End Claims.

(** * The claims on the reference instance *)


Lemma Model_registered_reachable : reachable (L:=Model.libs) Model.registered.
Proof.
  exact (reachable_handle (L:=Model.libs) (Model.env_at 1000 Model.ten_units)
           (Register Model.alice) fresh reachable_fresh).
Qed.





Lemma usage_invalid_token_unhandled_witness :
  let env := Model.env_at 2000 Model.ten_units in
  let req := ChatRequest.mk "hi" "text" in
  invalid_token (L:=Model.libs) env Model.forged_token
  ∧ chat (L:=Model.libs) env req Model.forged_token Model.registered
    = (inl (HTTPException 401 "Invalid token"), Model.registered)
  ∧ ∃ e, usage (L:=Model.libs) env Model.forged_token Model.registered
         = (inl e, Model.registered)
         ∧ (e = JWTError ∨ e = KeyError "sub")
         ∧ e ≠ HTTPException 401 "Invalid token".
Proof.
  intros env req.
  assert (invalid_token (L:=Model.libs) env Model.forged_token) as H1
    by (vm_compute; exact I).
  split.
  - exact H1.
  - exact (usage_invalid_token_unhandled (L:=Model.libs) env req
             Model.forged_token Model.registered H1).
Defined.

(** What [usage] and [chat] do with a forged token, and with a token that
    carries no ["sub"]. *)
Example usage_forged_token :
  let env := Model.env_at 2000 Model.ten_units in
  let req := ChatRequest.mk "hi" "text" in
  fst (usage (L:=Model.libs) env Model.forged_token Model.registered)
    = inl JWTError
  ∧ fst (usage (L:=Model.libs) env Model.anonymous_token Model.registered)
    = inl (KeyError "sub")
  ∧ fst (chat (L:=Model.libs) env req Model.forged_token Model.registered)
    = inl (HTTPException 401 "Invalid token")
  ∧ fst (chat (L:=Model.libs) env req Model.anonymous_token Model.registered)
    = inl (HTTPException 401 "Invalid token").
Proof. intros env req. split_and!; by vm_compute. Qed.

Lemma chat_upstream_failure_keeps_usage_witness :
  let env := Model.env_at 2000 Model.down in
  let req := ChatRequest.mk "hi" "text" in
  let after := snd (chat (L:=Model.libs) env req Model.alice_token
                      Model.registered) in
  completions_create env "gpt-4o-mini" (ChatRequest.message req)
    = CompletionRaises "timeout"
  ∧ db after = db Model.registered
  ∧ (∀ env' t',
       fst (usage (L:=Model.libs) env' t' after)
       = fst (usage (L:=Model.libs) env' t' Model.registered))
  ∧ (∀ account sub,
       fst (chat_user_id (L:=Model.libs) env Model.alice_token
              Model.registered) = inr account →
       fst (first_subscription_by_user account Model.registered) = inr sub →
       quota_exceeded env sub = false →
       ChatRequest.type req = "text"%string →
       fst (chat (L:=Model.libs) env req Model.alice_token Model.registered)
       = inl (UpstreamError "timeout")).
Proof.
  intros env req after.
  assert (completions_create env "gpt-4o-mini" (ChatRequest.message req)
          = CompletionRaises "timeout") as H1 by reflexivity.
  split.
  - exact H1.
  - exact (chat_upstream_failure_keeps_usage (L:=Model.libs) env req
             Model.alice_token Model.registered "timeout" H1).
Defined.

Lemma register_fresh_cycle_witness :
  let env := Model.env_at 1000 Model.ten_units in
  (reachable (L:=Model.libs) fresh
   ∧ fst (register (L:=Model.libs) env Model.alice fresh)
     = inr [("msg"%string, JStr "Registered! Login now.")])
  ∧ ∃ u s,
      fst (first_user_by_email (UserCreate.email Model.alice)
             (snd (register (L:=Model.libs) env Model.alice fresh)))
      = inr (Some u)
      ∧ fst (first_subscription_by_user (User.id u)
               (snd (register (L:=Model.libs) env Model.alice fresh)))
        = inr (Some s)
      ∧ Subscription.tokens_used s = Qc_of_Z 0
      ∧ Subscription.quota s = Qc_of_Z 500
      ∧ Subscription.cycle_end s
        = utcnow env + 30 * (24 * 60 * 60 * 1000000).
Proof.
  intros env.
  assert (fst (register (L:=Model.libs) env Model.alice fresh)
          = inr [("msg"%string, JStr "Registered! Login now.")]) as H1
    by (vm_compute; reflexivity).
  split.
  - exact (conj reachable_fresh H1).
  - exact (register_fresh_cycle (L:=Model.libs) env Model.alice fresh _
             reachable_fresh H1).
Defined.






Lemma reachable_tokens_used_zero_witness :
  reachable (L:=Model.libs) Model.registered
  ∧ Forall (λ s, Subscription.tokens_used s = Qc_of_Z 0)
      (subscriptions (db Model.registered))
  ∧ ∀ env r,
      subscriptions (db Model.registered)
        `prefix_of`
      subscriptions (db (snd (handle (L:=Model.libs) env r Model.registered))).
Proof.
  split.
  - exact Model_registered_reachable.
  - exact (reachable_tokens_used_zero (L:=Model.libs) Model.registered
             Model_registered_reachable).
Defined.

(** * Further properties of the handlers *)

Section Outcomes.
Context `{L : Libs}.



(** X3: [usage] never fails with an [HTTPException].  It lets escape the
    library's [JWTError] when the token does not decode, [KeyError] when the
    payload has no ["sub"], and [AttributeError] when no subscription row
    has the account of the token. *)
Theorem usage_failures env t w e :
  fst (usage env t w) = inl e →
  let decoded :=
    jwt_decode t (getenv_SECRET_KEY env) ["HS256"%string] (utcnow env) in
  (e = JWTError ∧ decoded = None)
  ∨ (e = KeyError "sub"
     ∧ ∃ payload, decoded = Some payload ∧ payload !! "sub"%string = None)
  ∨ (e = AttributeError
     ∧ ∃ payload account,
         decoded = Some payload
         ∧ payload !! "sub"%string = Some account
         ∧ account ∉ (Subscription.user_id <$> subscriptions (db w))).
Proof.
  unfold usage, decode, getitem, first_subscription_by_user, raise,
    mbind, M_bind, mret, M_ret. simpl.
  destruct (jwt_decode _ _ _ _) as [payload|]; simpl;
    [|intros [= <-]; by left].
  destruct (payload !! _) as [account|] eqn:Hsub; simpl;
    [|intros [= <-]; right; left; eauto].
  destruct (head _) eqn:Hfirst; simpl; [done|].
  intros [= <-]. right. right. split; [done|].
  apply first_None in Hfirst. eauto.
Qed.

(** X4: a [chat] that fails with 401 "Invalid token" or with
    403 "Quota exceeded" has left the world as it was, having sent nothing
    upstream.  It fails in no other way but by the exception of the upstream
    call, or by [IndexError] on a completion without choices, and then the
    prompt has been sent upstream, once, and the tables are as before. *)
Theorem chat_failures env req t w e :
  fst (chat env req t w) = inl e →
  ((e = HTTPException 401 "Invalid token"
    ∨ e = HTTPException 403 "Quota exceeded")
   ∧ snd (chat env req t w) = w)
  ∨ ((e = IndexError ∨ ∃ why, e = UpstreamError why)
     ∧ ChatRequest.type req = "text"%string
     ∧ snd (chat env req t w)
       = mkWorld (db w) (upstream_calls w ++ [ChatRequest.message req])).
Proof.
  destruct (fst (chat_user_id env t w)) as [e'|account] eqn:Hid.
  - unfold chat, mbind, M_bind. rewrite chat_user_id_run in *.
    destruct (jwt_decode _ _ _ _) as [payload|]; simpl in *;
      [destruct (payload !! _); simpl in *; [done|]|];
      intros [= <-]; left; eauto.
  - rewrite (chat_run _ _ _ _ _ Hid).
    destruct (quota_exceeded _ _); simpl; [intros [= <-]; left; eauto|].
    case_bool_decide as Htype; simpl; [|done].
    destruct (completions_create _ _ _) as [why|[|content rest] used]; simpl;
      [intros [= <-]; right; eauto..|done].
Qed.

End Outcomes.

(** ** What holds in every reachable world *)

Section Reachable.
Context `{L : Libs}.

(** X5: in every reachable world every account has exactly one subscription
    row, every subscription row belongs to an account, and the two tables
    have the same number of rows: no account is seen without its billing
    cycle between two requests. *)
Theorem reachable_one_cycle_per_account w :
  reachable w →
  (∀ u, u ∈ users (db w) →
        length (filter (λ s, Subscription.user_id s = User.id u)
                       (subscriptions (db w))) = 1%nat)
  ∧ (∀ s, s ∈ subscriptions (db w) →
          ∃ u, u ∈ users (db w) ∧ User.id u = Subscription.user_id s)
  ∧ length (subscriptions (db w)) = length (users (db w)).
Proof.
  intros [_ Hids Howner _]%reachable_consistent. split_and!.
  - intros u Hu.
    destruct (filter_unique Subscription.user_id (User.id u)
                (subscriptions (db w))) as (s & -> & _); [| |done].
    + by rewrite Howner.
    + rewrite Howner. apply list_elem_of_fmap. eauto.
  - intros s Hs.
    assert (Subscription.user_id s ∈ User.id <$> users (db w)) as Hin.
    { rewrite <- Howner. apply list_elem_of_fmap. eauto. }
    apply list_elem_of_fmap in Hin as (u & ? & ?). eauto.
  - by rewrite <- (length_fmap Subscription.user_id), Howner, length_fmap.
Qed.

(** X6: in every reachable world the quota is never what rejects: for a
    subscription row of the tables, the condition of line 91 holds exactly
    when the clock is past [cycle_end]; at [cycle_end] itself the request
    still passes. *)
Theorem reachable_rejection_is_expiry env w s :
  reachable w →
  s ∈ subscriptions (db w) →
  quota_exceeded env (Some s)
    = bool_decide (Subscription.cycle_end s < utcnow env).
Proof.
  intros [_ _ _ Hdefaults]%reachable_consistent Hs.
  rewrite Forall_forall in Hdefaults.
  destruct (Hdefaults s Hs) as [Hused Hquota].
  unfold quota_exceeded. rewrite Hused, Hquota.
  by rewrite orb_false_r.
Qed.

End Reachable.

(** ** Requests in a row *)

Section Composition.
Context `{L : Libs}.

(** What [.first()] finds stays what it finds when rows are appended. *)
Lemma first_prefix {A} (P : A → Prop) `{!∀ x, Decision (P x)}
    (rows rows' : list A) (x : A) :
  head (filter P rows) = Some x → rows `prefix_of` rows' →
  head (filter P rows') = Some x.
Proof.
  intros Hx [more ->]. rewrite filter_app.
  destruct (filter P rows); [done|]. done.
Qed.

Lemma handle_users env r w :
  users (db w) `prefix_of` users (db (snd (handle env r w))).
Proof.
  destruct r as [user|user|req t|t]; simpl.
  - rewrite register_run. destruct (head _); simpl; [done|].
    by apply prefix_app_r.
  - by rewrite login_world.
  - by rewrite chat_db.
  - by rewrite usage_world.
Qed.

Lemma serve_reachable rs w : reachable w → reachable (serve rs w).
Proof.
  revert w. induction rs as [|[env r] rs IH]; intros w Hw; [done|].
  simpl. apply IH. by constructor.
Qed.

Lemma serve_tables rs w :
  users (db w) `prefix_of` users (db (serve rs w))
  ∧ subscriptions (db w) `prefix_of` subscriptions (db (serve rs w)).
Proof.
  revert w. induction rs as [|[env r] rs IH]; intros w; [done|].
  simpl. destruct (IH (snd (handle env r w))) as [Husers Hsubs]. split.
  - etrans; [apply handle_users|done].
  - etrans; [apply handle_subscriptions|done].
Qed.






End Composition.

(** ** Columns that no handler reads *)

Section Flags.
Context `{L : Libs}.

(** Rows that agree on a key are found, or not found, together. *)
Lemma first_related {A B} `{EqDecision B} (R : A → A → Prop) (f : A → B)
    (k : B) (rows rows' : list A) :
  (∀ x x', R x x' → f x = f x') →
  Forall2 R rows rows' →
  option_Forall2 R (head (filter (λ x, f x = k) rows))
                   (head (filter (λ x, f x = k) rows')).
Proof.
  intros Hkey Hrows. induction Hrows as [|x x' rows rows' Hx _ IH]; simpl.
  - constructor.
  - rewrite !filter_cons. rewrite <- (Hkey x x' Hx).
    case_decide; [by constructor|done].
Qed.

Lemma same_user_ids (rows rows' : list User.t) :
  Forall2 same_user rows rows' → User.id <$> rows = User.id <$> rows'.
Proof.
  induction 1 as [|u u' rows rows' [Hid _] _ IH]; csimpl; [done|].
  by rewrite Hid, IH.
Qed.

Lemma same_subscription_ids (rows rows' : list Subscription.t) :
  Forall2 same_subscription rows rows' →
  Subscription.id <$> rows = Subscription.id <$> rows'.
Proof.
  induction 1 as [|s s' rows rows' [Hid _] _ IH]; csimpl; [done|].
  by rewrite Hid, IH.
Qed.

(** X10: no handler reads [is_active] or [status].  In two worlds whose rows
    differ at most in these two columns, every request gets the same answer,
    and the worlds it leaves differ again at most in these columns: an
    account that has been deactivated, or whose subscription is no longer
    ["active"], is served as before. *)
Theorem flags_ignored env r w w' :
  same_but_flags w w' →
  fst (handle env r w) = fst (handle env r w')
  ∧ same_but_flags (snd (handle env r w)) (snd (handle env r w')).
Proof.
  intros Hsame. pose proof Hsame as [Husers Hsubs].
  destruct r as [user|user|req t|t]; simpl.
  - rewrite !register_run.
    pose proof (first_related same_user User.email (UserCreate.email user)
                  _ _ (λ u u' H, proj1 (proj2 H)) Husers) as Hfirst.
    destruct Hfirst as [u u' _|]; [by split|]. simpl.
    rewrite (same_user_ids _ _ Husers), (same_subscription_ids _ _ Hsubs).
    split; [done|]. split; simpl.
    + apply Forall2_app; [done|]. by repeat constructor.
    + apply Forall2_app; [done|]. by repeat constructor.
  - rewrite !login_world, !login_run.
    pose proof (first_related same_user User.email (UserCreate.email user)
                  _ _ (λ u u' H, proj1 (proj2 H)) Husers) as Hfirst.
    destruct Hfirst as [u u' (Hid & _ & Hhash)|]; [|by split].
    rewrite Hid, Hhash. by destruct (pwd_verify _ _).
  - split; [|by split; rewrite !chat_db].
    destruct (fst (chat_user_id env t w)) as [e|account] eqn:Hid.
    + unfold chat, mbind, M_bind. rewrite !chat_user_id_run in *.
      destruct (jwt_decode _ _ _ _) as [payload|]; [|done].
      by destruct (payload !! _).
    + assert (fst (chat_user_id env t w') = inr account) as Hid'.
      { rewrite chat_user_id_run in *.
        destruct (jwt_decode _ _ _ _) as [payload|]; [|done].
        by destruct (payload !! _). }
      rewrite (chat_run _ _ _ _ _ Hid), (chat_run _ _ _ _ _ Hid').
      pose proof (first_related same_subscription Subscription.user_id
                    account _ _ (λ s s' H, proj1 (proj2 H)) Hsubs) as Hfirst.
      assert (quota_exceeded env
                (head (filter (λ s, Subscription.user_id s = account)
                              (subscriptions (db w))))
              = quota_exceeded env
                  (head (filter (λ s, Subscription.user_id s = account)
                                (subscriptions (db w'))))) as <-.
      { destruct Hfirst as [s s' (_ & _ & Hend & Hused & Hquota)|]; [|done].
        simpl. by rewrite Hend, Hused, Hquota. }
      destruct (quota_exceeded _ _); [done|].
      case_bool_decide; [|done].
      by destruct (completions_create _ _ _) as [why|[|content rest] used].
  - rewrite !usage_world. split; [|by split].
    unfold usage, decode, getitem, first_subscription_by_user, raise,
      mbind, M_bind, mret, M_ret.
    destruct (jwt_decode _ _ _ _) as [payload|]; [|done].
    destruct (payload !! _) as [account|]; [|done].
    pose proof (first_related same_subscription Subscription.user_id
                  account _ _ (λ s s' H, proj1 (proj2 H)) Hsubs) as Hfirst.
    simpl. destruct Hfirst as [s s' (_ & _ & _ & Hused & Hquota)|]; [|done].
    simpl. by rewrite Hused, Hquota.
Qed.

End Flags.

(** * The further properties on the reference instance *)

Lemma usage_failures_witness :
  let env := Model.env_at 2000 Model.ten_units in
  let decoded :=
    jwt_decode (Libs:=Model.libs) Model.forged_token (getenv_SECRET_KEY env)
      ["HS256"%string] (utcnow env) in
  fst (usage (L:=Model.libs) env Model.forged_token Model.registered)
    = inl JWTError
  ∧ ((JWTError = JWTError ∧ decoded = None)
     ∨ (JWTError = KeyError "sub"
        ∧ ∃ payload, decoded = Some payload ∧ payload !! "sub"%string = None)
     ∨ (JWTError = AttributeError
        ∧ ∃ payload account,
            decoded = Some payload
            ∧ payload !! "sub"%string = Some account
            ∧ account ∉ (Subscription.user_id
                           <$> subscriptions (db Model.registered)))).
Proof.
  intros env decoded.
  assert (fst (usage (L:=Model.libs) env Model.forged_token Model.registered)
          = inl JWTError) as H1 by (vm_compute; reflexivity).
  split.
  - exact H1.
  - exact (usage_failures (L:=Model.libs) env Model.forged_token
             Model.registered JWTError H1).
Defined.

Lemma chat_failures_witness :
  let env := Model.env_at 2000 Model.down in
  let req := ChatRequest.mk "hi" "text" in
  let e := UpstreamError "timeout" in
  let after := chat (L:=Model.libs) env req Model.alice_token
                 Model.registered in
  fst after = inl e
  ∧ (((e = HTTPException 401 "Invalid token"
       ∨ e = HTTPException 403 "Quota exceeded")
      ∧ snd after = Model.registered)
     ∨ ((e = IndexError ∨ ∃ why, e = UpstreamError why)
        ∧ ChatRequest.type req = "text"%string
        ∧ snd after
          = mkWorld (db Model.registered)
              (upstream_calls Model.registered ++ [ChatRequest.message req]))).
Proof.
  intros env req e after.
  assert (fst after = inl e) as H1 by (vm_compute; reflexivity).
  split.
  - exact H1.
  - exact (chat_failures (L:=Model.libs) env req Model.alice_token
             Model.registered e H1).
Defined.

Lemma reachable_one_cycle_per_account_witness :
  reachable (L:=Model.libs) Model.registered
  ∧ (∀ u, u ∈ users (db Model.registered) →
          length (filter (λ s, Subscription.user_id s = User.id u)
                         (subscriptions (db Model.registered))) = 1%nat)
  ∧ (∀ s, s ∈ subscriptions (db Model.registered) →
          ∃ u, u ∈ users (db Model.registered)
               ∧ User.id u = Subscription.user_id s)
  ∧ length (subscriptions (db Model.registered))
    = length (users (db Model.registered)).
Proof.
  split.
  - exact Model_registered_reachable.
  - exact (reachable_one_cycle_per_account (L:=Model.libs) Model.registered
             Model_registered_reachable).
Defined.

Lemma reachable_rejection_is_expiry_witness :
  let env := Model.env_at 2592000001000 Model.ten_units in
  let s := Subscription.mk 1 1 "active" 2592000001000
             (Qc_of_Z 0) (Qc_of_Z 500) in
  (reachable (L:=Model.libs) Model.registered
   ∧ s ∈ subscriptions (db Model.registered))
  ∧ quota_exceeded env (Some s)
    = bool_decide (Subscription.cycle_end s < utcnow env).
Proof.
  intros env s.
  assert (s ∈ subscriptions (db Model.registered)) as H1
    by (vm_compute; apply list_elem_of_here).
  split.
  - exact (conj Model_registered_reachable H1).
  - exact (reachable_rejection_is_expiry (L:=Model.libs) env Model.registered
             s Model_registered_reachable H1).
Defined.




Lemma flags_ignored_witness :
  let env := Model.env_at 2000 Model.ten_units in
  let r := @Chat Model.libs (ChatRequest.mk "hi" "text") Model.alice_token in
  let closed :=
    mkWorld
      (mkDb [User.mk 1 "a@x.com" "s1$pw123" false]
            [Subscription.mk 1 1 "cancelled" 2592000001000
               (Qc_of_Z 0) (Qc_of_Z 500)])
      [] in
  same_but_flags Model.registered closed
  ∧ fst (handle (L:=Model.libs) env r Model.registered)
    = fst (handle (L:=Model.libs) env r closed)
  ∧ same_but_flags (snd (handle (L:=Model.libs) env r Model.registered))
      (snd (handle (L:=Model.libs) env r closed)).
Proof.
  intros env r closed.
  assert (same_but_flags Model.registered closed) as H1
    by (vm_compute; repeat constructor).
  split.
  - exact H1.
  - exact (flags_ignored (L:=Model.libs) env r Model.registered closed H1).
Defined.

(** ** The billing cycle over time *)

Section Cycle.
Context `{L : Libs}.

(** X11: the billing cycle of an account is never renewed.  After a
    successful registration from a reachable world, and whatever requests
    are served afterwards, the account found under the email is the new one
    and its subscription still ends thirty days after the registration, with
    nothing used: once that time has passed, no request of the program
    brings the account back. *)
Theorem cycle_never_renewed env user w b rs :
  reachable w →
  fst (register env user w) = inr b →
  let later := serve rs (snd (register env user w)) in
  ∃ u s,
    fst (first_user_by_email (UserCreate.email user) later) = inr (Some u)
    ∧ fst (first_subscription_by_user (User.id u) later) = inr (Some s)
    ∧ Subscription.cycle_end s = utcnow env + 30 * (24 * 60 * 60 * 1000000)
    ∧ Subscription.tokens_used s = Qc_of_Z 0.
Proof.
  intros [_ _ Howner _]%reachable_consistent Hok later. subst later.
  destruct (serve_tables rs (snd (register env user w))) as [Husers Hsubs].
  revert Hok Husers Hsubs. rewrite register_run.
  destruct (head _) eqn:Hfirst; [done|]. intros _. simpl.
  apply first_None in Hfirst. intros Husers Hsubs.
  eexists _, _. unfold first_user_by_email, first_subscription_by_user.
  simpl. split_and!.
  - f_equal. eapply first_prefix; [|exact Husers].
    by apply (first_snoc_new User.email).
  - f_equal. eapply first_prefix; [|exact Hsubs].
    apply (first_snoc_new Subscription.user_id); [|done].
    rewrite Howner. apply next_id_new.
  - done.
  - done.
Qed.

End Cycle.

Lemma cycle_never_renewed_witness :
  let env := Model.env_at 1000 Model.ten_units in
  let env' := Model.env_at 9000 Model.ten_units in
  let rs :=
    [(env', @Register Model.libs (UserCreate.mk "b@x.com" "pw456"));
     (env', @Chat Model.libs (ChatRequest.mk "hi" "text") Model.alice_token)] in
  let later :=
    serve (L:=Model.libs) rs
      (snd (register (L:=Model.libs) env Model.alice fresh)) in
  (reachable (L:=Model.libs) fresh
   ∧ fst (register (L:=Model.libs) env Model.alice fresh)
     = inr [("msg"%string, JStr "Registered! Login now.")])
  ∧ ∃ u s,
      fst (first_user_by_email (UserCreate.email Model.alice) later)
      = inr (Some u)
      ∧ fst (first_subscription_by_user (User.id u) later) = inr (Some s)
      ∧ Subscription.cycle_end s
        = utcnow env + 30 * (24 * 60 * 60 * 1000000)
      ∧ Subscription.tokens_used s = Qc_of_Z 0.
Proof.
  intros env env' rs later.
  assert (fst (register (L:=Model.libs) env Model.alice fresh)
          = inr [("msg"%string, JStr "Registered! Login now.")]) as H1
    by (vm_compute; reflexivity).
  split.
  - exact (conj reachable_fresh H1).
  - exact (cycle_never_renewed (L:=Model.libs) env Model.alice fresh _ rs
             reachable_fresh H1).
Defined.
